(** * A shallow embedding of the user-directory CRUD service

    The development follows the layout of the TypeScript sources:

    - [backend/types/user.ts]            : [User], [CreateUserDto], [UpdateUserDto]
    - [backend/services/userService.ts]  : [Module userService] over the
      module-level array [users]
    - [app/api/users/route.ts]           : [Module UsersRoute]  ([GET], [POST])
    - [app/api/users/[id]/route.ts]      : [Module UserIdRoute] ([PUT], [DELETE])

    The module-level [let users: User[]] is the only mutable state.  Every
    operation is modelled as a function from the array before the call to
    the pair of the value returned and the array after the call.  The two
    readings of the system clock made by [create] ([Date.now()] and
    [new Date().toISOString()]) are inputs supplied by the environment. *)

From stdpp Require Import base option list strings pretty.
From Stdlib Require Import ZArith.

Local Open Scope string_scope.
Local Open Scope list_scope.

(** ** backend/types/user.ts *)

Record User := mkUser {
  id : string;
  name : string;
  email : string;
  role : string;
  createdAt : string;
}.

Global Instance User_eq_dec : EqDecision User := ltac:(solve_decision).

(** [CreateUserDto]: the three required string properties. *)
Module CreateUserDto.
Record t := mk {
  name : string;
  email : string;
  role : string;
}.
End CreateUserDto.

(** [UpdateUserDto]: the three optional string properties.  [None] stands
    for a property the object does not carry. *)
Module UpdateUserDto.
Record t := mk {
  name : option string;
  email : option string;
  role : option string;
}.

(** The object literal [{}]. *)
Definition empty : t := mk None None None.
End UpdateUserDto.

(** The system clock as [create] reads it: [now] is the integer
    [Date.now()] returns (milliseconds since the epoch), [iso] the string
    [new Date().toISOString()] returns. *)
Record Clock := mkClock {
  now : Z;
  iso : string;
}.

(** [Number.prototype.toString] on an integer timestamp: its decimal
    numeral, with a leading minus sign below zero. *)
Definition toString (n : Z) : string := pretty n.

(** ** backend/services/userService.ts *)

(** The initial value of [users]: the three sample records.  Each
    [createdAt] is a clock reading taken when the module is loaded. *)
Definition users0 (t1 t2 t3 : string) : list User :=
  [ mkUser "1" "John Doe" "john@example.com" "Admin" t1;
    mkUser "2" "Jane Smith" "jane@example.com" "User" t2;
    mkUser "3" "Bob Johnson" "bob@example.com" "User" t3 ].

(** The callback [(user) => user.id === id]. *)
Definition has_id (i : string) (user : User) : Prop := id user = i.

Global Instance has_id_dec i user : Decision (has_id i user) :=
  decide (id user = i).

(** [{ ...user, ...data }] for [data] of the declared type
    [UpdateUserDto]: the properties of [user], with [name], [email] and
    [role] overridden by those [data] carries.  An object with
    properties the type does not declare is outside this model. *)
Definition spread (user : User) (data : UpdateUserDto.t) : User :=
  {| id := id user;
     name := default (name user) (UpdateUserDto.name data);
     email := default (email user) (UpdateUserDto.email data);
     role := default (role user) (UpdateUserDto.role data);
     createdAt := createdAt user |}.

Module userService.

(** [getAll(): User[] { return users; }] *)
Definition getAll (users : list User) : list User * list User :=
  (users, users).

(** [users.find((user) => user.id === id)]; [None] is [undefined]. *)
Definition getById (i : string) (users : list User)
  : option User * list User :=
  (snd <$> list_find (has_id i) users, users).

(** [create], for [data] of the declared type [CreateUserDto]: the new
    object takes its [id] from [Date.now()], then the three properties of
    [data], then [createdAt]; it is pushed at the end of [users] and
    returned. *)
Definition create (clock : Clock) (data : CreateUserDto.t)
    (users : list User) : User * list User :=
  let newUser :=
    {| id := toString (now clock);
       name := CreateUserDto.name data;
       email := CreateUserDto.email data;
       role := CreateUserDto.role data;
       createdAt := iso clock |} in
  (newUser, users ++ [newUser]).

(** [update]: [findIndex] gives the first index whose record has the id
    ([None] is [-1]); the slot is overwritten with the merged object and
    read back.  [None] as a result is [null]. *)
Definition update (i : string) (data : UpdateUserDto.t)
    (users : list User) : option User * list User :=
  match list_find (has_id i) users with
  | None => (None, users)
  | Some (index, user) =>
      let users' := <[index := spread user data]> users in
      (users' !! index, users')
  end.

(** [delete]: [findIndex], then [users.splice(index, 1)]. *)
Definition delete (i : string) (users : list User) : bool * list User :=
  match list_find (has_id i) users with
  | None => (false, users)
  | Some (index, _) => (true, base.delete index users)
  end.

End userService.

(** ** next/server: what the route handlers use of it *)

(** The values the handlers pass to [NextResponse.json]. *)
Inductive Json :=
  | JsonUsers (users : list User)      (* an array of User *)
  | JsonUser (user : User)             (* one User *)
  | JsonError (error : string)         (* [{ error }] *)
  | JsonMessage (message : string).    (* [{ message }] *)

Module NextResponse.
Record t := mk {
  body : Json;
  status : Z;
}.

(** [NextResponse.json(body, init)]: the status is 200 unless [init]
    gives one. *)
Definition json (b : Json) (init : option Z) : t :=
  mk b (default 200%Z init).
End NextResponse.

(** [await request.json()] either yields the parsed body or rejects; a
    request is modelled by that outcome, [None] for a rejection (which the
    handler's [catch] turns into a 500 response). *)
Definition NextRequest (B : Type) : Type := option B.

(** The body of a POST as it arrives.  The handler annotates it as
    [CreateUserDto] but tests each property for presence, so a property
    may be missing ([None]) or any string, the empty one included. *)
Module CreateUserBody.
Record t := mk {
  name : option string;
  email : option string;
  role : option string;
}.

(** The same object read as a [CreateUserDto], that is, by its three
    declared properties; the handler does so only once all three passed
    the presence test. *)
Definition dto (b : t) : CreateUserDto.t :=
  CreateUserDto.mk (default "" (name b)) (default "" (email b))
                   (default "" (role b)).
End CreateUserBody.

(** [!v] for a property that is [undefined] or a string: true exactly on
    [undefined] and on the empty string. *)
Definition falsy (v : option string) : bool :=
  match v with
  | None => true
  | Some s => bool_decide (s = "")
  end.

(** ** app/api/users/route.ts *)
Module UsersRoute.

(** [GET]: nothing in its [try] block throws, so its [catch] branch (a
    500 response) is never taken. *)
Definition GET (users : list User) : NextResponse.t * list User :=
  let '(all, users) := userService.getAll users in
  (NextResponse.json (JsonUsers all) None, users).

(** [POST]: the presence test on the three properties, then [create]. *)
Definition POST (clock : Clock) (request : NextRequest CreateUserBody.t)
    (users : list User) : NextResponse.t * list User :=
  match request with
  | None =>
      (NextResponse.json (JsonError "Failed to create user") (Some 500%Z),
       users)
  | Some body =>
      if falsy (CreateUserBody.name body)
         || falsy (CreateUserBody.email body)
         || falsy (CreateUserBody.role body)
      then
        (NextResponse.json
           (JsonError "Name, email, and role are required") (Some 400%Z),
         users)
      else
        let '(newUser, users) :=
          userService.create clock (CreateUserBody.dto body) users in
        (NextResponse.json (JsonUser newUser) (Some 201%Z), users)
  end.

End UsersRoute.

(** ** app/api/users/[id]/route.ts *)
Module UserIdRoute.

(** [PUT]: [i] is the route parameter; the body goes to [update] as it
    is, with no test on its properties. *)
Definition PUT (i : string) (request : NextRequest UpdateUserDto.t)
    (users : list User) : NextResponse.t * list User :=
  match request with
  | None =>
      (NextResponse.json (JsonError "Failed to update user") (Some 500%Z),
       users)
  | Some body =>
      let '(updatedUser, users) := userService.update i body users in
      match updatedUser with
      | None =>
          (NextResponse.json (JsonError "User not found") (Some 404%Z),
           users)
      | Some updatedUser =>
          (NextResponse.json (JsonUser updatedUser) None, users)
      end
  end.

(** [DELETE]: the request body is not read, and nothing in the [try]
    block throws. *)
Definition DELETE (i : string) (users : list User)
  : NextResponse.t * list User :=
  let '(success, users) := userService.delete i users in
  if success
  then (NextResponse.json (JsonMessage "User deleted successfully") None,
        users)
  else (NextResponse.json (JsonError "User not found") (Some 404%Z), users).

End UserIdRoute.

(** ** Sequences of calls on the service *)

(** One call on [userService], with its arguments (and, for [create], the
    clock readings it makes). *)
Inductive Call :=
  | CallGetAll
  | CallGetById (i : string)
  | CallCreate (clock : Clock) (data : CreateUserDto.t)
  | CallUpdate (i : string) (data : UpdateUserDto.t)
  | CallDelete (i : string).

(** What a call returned. *)
Inductive Return :=
  | RetGetAll (users : list User)
  | RetGetById (user : option User)
  | RetCreate (user : User)
  | RetUpdate (user : option User)
  | RetDelete (ok : bool).

Definition call (c : Call) (users : list User) : Return * list User :=
  match c with
  | CallGetAll =>
      let '(r, users) := userService.getAll users in (RetGetAll r, users)
  | CallGetById i =>
      let '(r, users) := userService.getById i users in (RetGetById r, users)
  | CallCreate clock data =>
      let '(r, users) := userService.create clock data users in
      (RetCreate r, users)
  | CallUpdate i data =>
      let '(r, users) := userService.update i data users in
      (RetUpdate r, users)
  | CallDelete i =>
      let '(r, users) := userService.delete i users in (RetDelete r, users)
  end.

(** The calls of [cs] made one after the other: what each returned, and
    the array after the last one. *)
Fixpoint run (cs : list Call) (users : list User)
  : list Return * list User :=
  match cs with
  | [] => ([], users)
  | c :: cs =>
      let '(r, users) := call c users in
      let '(rs, users) := run cs users in
      (r :: rs, users)
  end.

(** The ids of the live records, in array order. *)
Definition ids (users : list User) : list string := id <$> users.

(** The records [users] that carry the id [i]. *)
Definition matches (i : string) (users : list User) : list User :=
  filter (has_id i) users.

(** The records the [create] calls of a run returned, in call order. *)
Definition created (rs : list Return) : list User :=
  omap (λ r, match r with RetCreate u => Some u | _ => None end) rs.

(** The return value of a [delete] that removed a record. *)
Definition is_deleted (r : Return) : bool :=
  match r with
  | RetDelete ok => ok
  | _ => false
  end.

(** How many [delete] calls of a run returned [true]. *)
Definition deleted (rs : list Return) : nat :=
  length (filter is_deleted rs).

(** A call other than [update]. *)
Definition not_update (c : Call) : Prop :=
  match c with
  | CallUpdate _ _ => False
  | _ => True
  end.

(** ** The last-written state of the records *)

(** The records as the specification of the Store words them, to compare
    [run] with.  The state a record was last written to is what [create]
    wrote when it made the record, changed by each later [update] that
    located it. *)

(** An update's write: the fields [data] carries are overwritten, the
    others, [id] and [createdAt] are left. *)
Definition overwrite (data : UpdateUserDto.t) (u : User) : User :=
  mkUser (id u)
    (match UpdateUserDto.name data with Some v => v | None => name u end)
    (match UpdateUserDto.email data with Some v => v | None => email u end)
    (match UpdateUserDto.role data with Some v => v | None => role u end)
    (createdAt u).

(** [f] applied to the first record with the id, when there is one. *)
Fixpoint writeFirst (i : string) (f : User → User) (l : list User)
  : list User :=
  match l with
  | [] => []
  | u :: l => if decide (id u = i) then f u :: l else u :: writeFirst i f l
  end.

(** The first record with the id removed, when there is one. *)
Fixpoint dropFirst (i : string) (l : list User) : list User :=
  match l with
  | [] => []
  | u :: l => if decide (id u = i) then l else u :: dropFirst i l
  end.

(** What a call writes: [create] adds, at the end, a record with its
    [id] and [createdAt] from the clock and the three fields given;
    [update] overwrites the record it locates; [delete] removes it; the
    two queries write nothing. *)
Definition written (c : Call) (log : list User) : list User :=
  match c with
  | CallGetAll => log
  | CallGetById _ => log
  | CallCreate clock data =>
      log ++ [mkUser (toString (now clock)) (CreateUserDto.name data)
                     (CreateUserDto.email data) (CreateUserDto.role data)
                     (iso clock)]
  | CallUpdate i data => writeFirst i (overwrite data) log
  | CallDelete i => dropFirst i log
  end.

(** The live records, each in its last-written state, after the calls of
    [cs] on the empty collection, in the order of their creation. *)
Definition lastWritten (cs : list Call) : list User :=
  foldl (λ log c, written c log) [] cs.

(** ** Sample inputs *)

(** Two requests to create a user. *)
Definition ann : CreateUserDto.t := CreateUserDto.mk "Ann" "ann@x.com" "User".
Definition bob : CreateUserDto.t := CreateUserDto.mk "Bob" "bob@x.com" "Admin".

(** Readings of the clock: [tick] and [tock] are one millisecond apart. *)
Definition tick : Clock := mkClock 1700000000000 "2023-11-14T22:13:20.000Z".
Definition tock : Clock := mkClock 1700000000001 "2023-11-14T22:13:20.001Z".

(** The array right after the module is loaded at [boot]. *)
Definition boot : string := "2023-11-14T22:00:00.000Z".
Definition seed : list User := users0 boot boot boot.

(** ** Requests as the framework routes them *)

(** The four exported handlers, addressed by method and path: GET and
    POST on [/api/users], PUT and DELETE on [/api/users/:id].  A POST
    carries the clock readings the server makes while it handles it. *)
Inductive Request :=
  | ReqGET
  | ReqPOST (clock : Clock) (request : NextRequest CreateUserBody.t)
  | ReqPUT (i : string) (request : NextRequest UpdateUserDto.t)
  | ReqDELETE (i : string).

Definition route (r : Request) (users : list User)
  : NextResponse.t * list User :=
  match r with
  | ReqGET => UsersRoute.GET users
  | ReqPOST clock request => UsersRoute.POST clock request users
  | ReqPUT i request => UserIdRoute.PUT i request users
  | ReqDELETE i => UserIdRoute.DELETE i users
  end.

(** ** frontend/components/UserForm.tsx *)

(** [s || d] for a string [s]: [d] when [s] is empty. *)
Definition or_string (s d : string) : string :=
  if decide (s = "") then d else s.

(** The initial [formData]: [user?.name || ''], [user?.email || ''] and
    [user?.role || 'User'].  The form data has the shape of a
    [CreateUserDto]. *)
Definition initialFormData (user : option User) : CreateUserDto.t :=
  match user with
  | None => CreateUserDto.mk "" "" "User"
  | Some u =>
      CreateUserDto.mk (or_string (name u) "") (or_string (email u) "")
                       (or_string (role u) "User")
  end.

(** ** frontend/components/UserTable.tsx *)

(** How a [fetch] ends: the request never reaches the server, the server
    handles it but the reply is lost, or the reply arrives.  In the first
    two cases the promise rejects. *)
Inductive Net :=
  | Offline
  | ReplyLost
  | Online.

(** [await fetch(...)] against a route handler: the reply, if one
    arrives, and the server's array afterwards. *)
Definition fetch (net : Net)
    (handler : list User → NextResponse.t * list User)
    (server : list User) : option NextResponse.t * list User :=
  match net with
  | Offline => (None, server)
  | ReplyLost => (None, (handler server).2)
  | Online => let '(response, server) := handler server in
              (Some response, server)
  end.

(** An id as the server issues them: the decimal numeral of an integer
    (1, 2 and 3 in the sample records, the reading of [Date.now()] in
    [create]).  Put into the path [/api/users/${id}], such an id reaches
    the handlers of [/api/users/:id] as their route parameter, unchanged;
    the table's requests are modelled for these ids. *)
Definition issued (i : string) : Prop := ∃ n : Z, i = toString n.

(** [response.ok]: a status from 200 to 299. *)
Definition ok (response : NextResponse.t) : bool :=
  bool_decide (200 ≤ NextResponse.status response ≤ 299)%Z.

(** [JSON.stringify(data)] as the POST and the PUT handler parse it: all
    three properties are present. *)
Definition createBody (data : CreateUserDto.t) : CreateUserBody.t :=
  CreateUserBody.mk (Some (CreateUserDto.name data))
                    (Some (CreateUserDto.email data))
                    (Some (CreateUserDto.role data)).

Definition updateBody (data : CreateUserDto.t) : UpdateUserDto.t :=
  UpdateUserDto.mk (Some (CreateUserDto.name data))
                   (Some (CreateUserDto.email data))
                   (Some (CreateUserDto.role data)).

Module UserTable.

(** The four [useState] cells.  [users] holds whatever [setUsers] was
    given, the parsed body of a reply. *)
Record State := mk {
  users : Json;
  isModalOpen : bool;
  editingUser : option User;
  isLoading : bool;
}.

(** The state at the first render. *)
Definition initial : State := mk (JsonUsers []) false None true.

(** [fetchUsers]: on a reply [setUsers(data)]; in every case
    [setIsLoading(false)]. *)
Definition fetchUsers (net : Net) (st : State) (server : list User)
  : State * list User :=
  match fetch net UsersRoute.GET server with
  | (Some response, server) =>
      (mk (NextResponse.body response) (isModalOpen st) (editingUser st)
          false, server)
  | (None, server) =>
      (mk (users st) (isModalOpen st) (editingUser st) false, server)
  end.

(** [handleCreate]: POST, and on an ok reply refresh and close the
    modal. *)
Definition handleCreate (net1 net2 : Net) (clock : Clock)
    (data : CreateUserDto.t) (st : State) (server : list User)
  : State * list User :=
  match fetch net1 (UsersRoute.POST clock (Some (createBody data))) server
  with
  | (Some response, server) =>
      if ok response then
        let '(st, server) := fetchUsers net2 st server in
        (mk (users st) false (editingUser st) (isLoading st), server)
      else (st, server)
  | (None, server) => (st, server)
  end.

(** [handleUpdate]: nothing without an [editingUser]; else PUT on its id,
    and on an ok reply refresh, close the modal and clear
    [editingUser]. *)
Definition handleUpdate (net1 net2 : Net) (data : CreateUserDto.t)
    (st : State) (server : list User) : State * list User :=
  match editingUser st with
  | None => (st, server)
  | Some user =>
      match fetch net1 (UserIdRoute.PUT (id user) (Some (updateBody data)))
                  server with
      | (Some response, server) =>
          if ok response then
            let '(st, server) := fetchUsers net2 st server in
            (mk (users st) false None (isLoading st), server)
          else (st, server)
      | (None, server) => (st, server)
      end
  end.

(** [handleDelete]: nothing unless [confirm(...)] answers true; else
    DELETE, and on an ok reply refresh. *)
Definition handleDelete (confirm : bool) (net1 net2 : Net) (i : string)
    (st : State) (server : list User) : State * list User :=
  if confirm then
    match fetch net1 (UserIdRoute.DELETE i) server with
    | (Some response, server) =>
        if ok response then fetchUsers net2 st server else (st, server)
    | (None, server) => (st, server)
    end
  else (st, server).

Definition openCreateModal (st : State) : State :=
  mk (users st) true None (isLoading st).

Definition openEditModal (user : User) (st : State) : State :=
  mk (users st) true (Some user) (isLoading st).

Definition closeModal (st : State) : State :=
  mk (users st) false None (isLoading st).

(** The [onSubmit] given to the form: [handleUpdate] when a user is being
    edited, [handleCreate] otherwise. *)
Definition onSubmit (net1 net2 : Net) (clock : Clock)
    (data : CreateUserDto.t) (st : State) (server : list User)
  : State * list User :=
  match editingUser st with
  | Some _ => handleUpdate net1 net2 data st server
  | None => handleCreate net1 net2 clock data st server
  end.

(** What the component reacts to: the effect run on mount, the buttons of
    the table, the ways out of the modal, and the submission of the
    form. *)
Inductive Event :=
  | Mount (net : Net)
  | ClickAddUser
  | ClickEdit (user : User)
  | ClickDelete (i : string) (confirm : bool) (net1 net2 : Net)
  | Close
  | Submit (data : CreateUserDto.t) (net1 net2 : Net) (clock : Clock).

Definition handle (e : Event) (st : State) (server : list User)
  : State * list User :=
  match e with
  | Mount net => fetchUsers net st server
  | ClickAddUser => (openCreateModal st, server)
  | ClickEdit user => (openEditModal user st, server)
  | ClickDelete i confirm net1 net2 =>
      handleDelete confirm net1 net2 i st server
  | Close => (closeModal st, server)
  | Submit data net1 net2 clock => onSubmit net1 net2 clock data st server
  end.

(** The buttons of a row pass on the row's record, which came from the
    server: its id is one the server issued. *)
Definition wired (e : Event) : Prop :=
  match e with
  | ClickEdit user => issued (id user)
  | ClickDelete i _ _ _ => issued i
  | _ => True
  end.

(** The events of [es] handled one after the other, each to its end
    before the next. *)
Fixpoint handleAll (es : list Event) (st : State) (server : list User)
  : State * list User :=
  match es with
  | [] => (st, server)
  | e :: es =>
      let '(st, server) := handle e st server in handleAll es st server
  end.

End UserTable.

(** ** The first record carrying an id *)

Section first_match.
Context (i : string).

(** [findIndex] answering [index] splits the array around the first
    record with the id. *)
Lemma list_find_first (users : list User) index user :
  list_find (has_id i) users = Some (index, user) →
  ∃ pre post,
    users = pre ++ user :: post ∧ length pre = index ∧
    Forall (λ x, id x ≠ i) pre ∧ id user = i.
Proof.
  intros (Hlook & Hid & Hleast)%list_find_Some.
  exists (take index users), (drop (S index) users).
  split_and!.
  - by rewrite take_drop_middle.
  - apply length_take_le. apply lookup_lt_Some in Hlook. lia.
  - apply Forall_lookup. intros j x Hj.
    apply lookup_take_Some in Hj as [Hj Hlt].
    exact (Hleast j x Hj Hlt).
  - exact Hid.
Qed.

Lemma list_find_middle (pre post : list User) user :
  Forall (λ x, id x ≠ i) pre → id user = i →
  list_find (has_id i) (pre ++ user :: post) = Some (length pre, user).
Proof.
  intros Hpre Hid. apply list_find_Some. split_and!.
  - by rewrite list_lookup_middle.
  - exact Hid.
  - intros j y Hj Hlt. rewrite lookup_app_l in Hj by done.
    rewrite Forall_lookup in Hpre. exact (Hpre j y Hj).
Qed.

Lemma list_find_absent (users : list User) :
  Forall (λ x, id x ≠ i) users → list_find (has_id i) users = None.
Proof. intros H. by apply list_find_None. Qed.

(** A record with the id somewhere in the array gives a first one. *)
Lemma present_first (users : list User) :
  (∃ u, u ∈ users ∧ id u = i) →
  ∃ pre first post,
    users = pre ++ first :: post ∧ Forall (λ x, id x ≠ i) pre ∧
    id first = i.
Proof.
  intros (u & Hin & Hid).
  destruct (list_find_elem_of (has_id i) users u Hin Hid) as [[index first] Hf].
  apply list_find_first in Hf as (pre & post & -> & _ & Hpre & Hfirst).
  by exists pre, first, post.
Qed.

Lemma matches_absent (users : list User) :
  Forall (λ x, id x ≠ i) users → matches i users = [].
Proof.
  unfold matches. induction 1 as [|x l Hx _ IH]; [done|].
  rewrite filter_cons_False by exact Hx. exact IH.
Qed.

Lemma matches_middle (pre post : list User) user :
  Forall (λ x, id x ≠ i) pre → id user = i →
  matches i (pre ++ user :: post) = user :: matches i post.
Proof.
  intros Hpre Hid. unfold matches. rewrite filter_app.
  fold (matches i pre). rewrite matches_absent by done.
  by rewrite filter_cons_True.
Qed.

(** The three operations that search by id, on an array split around
    its first match. *)
Lemma getById_middle (pre post : list User) user :
  Forall (λ x, id x ≠ i) pre → id user = i →
  userService.getById i (pre ++ user :: post)
  = (Some user, pre ++ user :: post).
Proof.
  intros. unfold userService.getById. by rewrite list_find_middle.
Qed.

Lemma update_middle (pre post : list User) user data :
  Forall (λ x, id x ≠ i) pre → id user = i →
  userService.update i data (pre ++ user :: post)
  = (Some (spread user data), pre ++ spread user data :: post).
Proof.
  intros. unfold userService.update. rewrite list_find_middle by done.
  cbv zeta. rewrite insert_app_r_alt by done.
  replace (length pre - length pre) with 0 by lia. simpl.
  by rewrite list_lookup_middle.
Qed.

Lemma delete_middle_first (pre post : list User) user :
  Forall (λ x, id x ≠ i) pre → id user = i →
  userService.delete i (pre ++ user :: post) = (true, pre ++ post).
Proof.
  intros. unfold userService.delete. rewrite list_find_middle by done.
  by rewrite delete_middle.
Qed.

Lemma getById_absent (users : list User) :
  Forall (λ x, id x ≠ i) users →
  userService.getById i users = (None, users).
Proof.
  intros. unfold userService.getById. by rewrite list_find_absent.
Qed.

Lemma update_absent (users : list User) data :
  Forall (λ x, id x ≠ i) users →
  userService.update i data users = (None, users).
Proof.
  intros. unfold userService.update. by rewrite list_find_absent.
Qed.

Lemma delete_absent (users : list User) :
  Forall (λ x, id x ≠ i) users →
  userService.delete i users = (false, users).
Proof.
  intros. unfold userService.delete. by rewrite list_find_absent.
Qed.

(** Either no record has the id, or the array splits around the first. *)
Lemma absent_or_first (users : list User) :
  Forall (λ x, id x ≠ i) users ∨
  ∃ pre first post,
    users = pre ++ first :: post ∧ Forall (λ x, id x ≠ i) pre ∧
    id first = i.
Proof.
  destruct (list_find (has_id i) users) as [[index first]|] eqn:Hf.
  - right. apply list_find_first in Hf as (pre & post & -> & _ & ? & ?).
    by exists pre, first, post.
  - left. by apply list_find_None in Hf.
Qed.

End first_match.

(** ** update *)

(** C3.  When some record has the id, [update] locates the record
    [getById] answers for it, and returns that record with each of
    [name], [email], [role] replaced by the value [data] carries for it
    and kept when [data] carries none; [id] and [createdAt] are kept.  The
    array keeps its length, holds the returned record in the slot of the
    old one and is unchanged in every other slot.  With the empty object
    the record and the array stay as they were. *)
Theorem update_changes_only_given_fields
    (users : list User) (i : string) (data : UpdateUserDto.t) :
  (∃ u, u ∈ users ∧ id u = i) →
  ∃ index user updated users',
    userService.getById i users = (Some user, users) ∧
    users !! index = Some user ∧
    userService.update i data users = (Some updated, users') ∧
    id updated = id user ∧
    createdAt updated = createdAt user ∧
    (∀ v, UpdateUserDto.name data = Some v → name updated = v) ∧
    (UpdateUserDto.name data = None → name updated = name user) ∧
    (∀ v, UpdateUserDto.email data = Some v → email updated = v) ∧
    (UpdateUserDto.email data = None → email updated = email user) ∧
    (∀ v, UpdateUserDto.role data = Some v → role updated = v) ∧
    (UpdateUserDto.role data = None → role updated = role user) ∧
    length users' = length users ∧
    users' !! index = Some updated ∧
    (∀ j, j ≠ index → users' !! j = users !! j) ∧
    (data = UpdateUserDto.empty → updated = user ∧ users' = users).
Proof.
  intros (pre & user & post & -> & Hpre & Hid)%present_first.
  exists (length pre), user, (spread user data),
         (pre ++ spread user data :: post).
  split_and!.
  - by apply getById_middle.
  - by rewrite list_lookup_middle.
  - by apply update_middle.
  - done.
  - done.
  - intros v Hv. simpl. by rewrite Hv.
  - intros Hv. simpl. by rewrite Hv.
  - intros v Hv. simpl. by rewrite Hv.
  - intros Hv. simpl. by rewrite Hv.
  - intros v Hv. simpl. by rewrite Hv.
  - intros Hv. simpl. by rewrite Hv.
  - rewrite !length_app. simpl. done.
  - by rewrite list_lookup_middle.
  - intros j Hj. destruct (decide (j < length pre)) as [Hlt|Hge].
    + by rewrite !lookup_app_l.
    + rewrite !lookup_app_r by lia.
      destruct (j - length pre) as [|k] eqn:Hk; [lia|done].
  - intros ->. destruct user. done.
Qed.

Lemma update_changes_only_given_fields_witness :
  (∃ u, u ∈ seed ∧ id u = "2") ∧
  ∃ index user updated users',
    userService.getById "2" seed = (Some user, seed) ∧
    seed !! index = Some user ∧
    userService.update "2" (UpdateUserDto.mk None None (Some "Manager")) seed
    = (Some updated, users') ∧
    role updated = "Manager" ∧ name updated = name user ∧
    id updated = id user ∧ createdAt updated = createdAt user.
Proof.
  assert (Hex : ∃ u, u ∈ seed ∧ id u = "2").
  { exists (mkUser "2" "Jane Smith" "jane@example.com" "User" boot).
    split; [|reflexivity]. apply list_elem_of_further, list_elem_of_here. }
  split; [exact Hex|].
  destruct (update_changes_only_given_fields seed "2"
              (UpdateUserDto.mk None None (Some "Manager")) Hex)
    as (index & user & updated & users' & Hget & Hlook & Hupd & Hi & Hc
        & _ & Hname & _ & _ & Hrole & _).
  exists index, user, updated, users'. split_and!; try done.
  - by apply Hrole.
  - by apply Hname.
Defined.

(** C5.  When no record has the id, [update] returns [null] and leaves the
    array as it was, and so does every one of any number of repetitions of
    the call. *)
Theorem update_absent_is_noop
    (users : list User) (i : string) (data : UpdateUserDto.t) (n : nat) :
  Forall (λ u, id u ≠ i) users →
  userService.update i data users = (None, users) ∧
  run (replicate n (CallUpdate i data)) users
  = (replicate n (RetUpdate None), users).
Proof.
  intros Habs. split; [by apply update_absent|].
  induction n as [|n IH]; [done|].
  simpl. rewrite update_absent by done. by rewrite IH.
Qed.

Lemma update_absent_is_noop_witness :
  Forall (λ u, id u ≠ "does-not-exist") seed ∧
  userService.update "does-not-exist" (UpdateUserDto.mk (Some "X") None None)
    seed = (None, seed) ∧
  run (replicate 3
         (CallUpdate "does-not-exist" (UpdateUserDto.mk (Some "X") None None)))
      seed
  = (replicate 3 (RetUpdate None), seed).
Proof.
  assert (H : Forall (λ u, id u ≠ "does-not-exist") seed).
  { unfold seed, users0. repeat constructor; simpl; discriminate. }
  split; [exact H|].
  exact (update_absent_is_noop seed "does-not-exist"
           (UpdateUserDto.mk (Some "X") None None) 3 H).
Defined.

(** ** delete *)

(** [delete] returns [true] exactly when some record has the id; it then
    removes the first such record and nothing else, and otherwise returns
    [false] and leaves the array as it was.  When one record only has the
    id, after a [delete] that returned [true] [getById] answers
    [undefined] and a second [delete] returns [false]. *)
Lemma delete_reports_presence (users : list User) (i : string) :
  let ok := (userService.delete i users).1 in
  let users' := (userService.delete i users).2 in
  (ok = true ↔ ∃ u, u ∈ users ∧ id u = i) ∧
  (ok = false → users' = users) ∧
  (ok = true →
     ∃ pre first post,
       users = pre ++ first :: post ∧ Forall (λ x, id x ≠ i) pre ∧
       id first = i ∧ users' = pre ++ post) ∧
  (ok = true → length (matches i users) = 1 →
     userService.getById i users' = (None, users') ∧
     userService.delete i users' = (false, users')).
Proof.
  destruct (absent_or_first i users)
    as [Habs | (pre & first & post & -> & Hpre & Hid)].
  - rewrite delete_absent by done. simpl. split_and!; try done.
    split; [done|]. intros (u & Hin & Hu).
    rewrite Forall_forall in Habs. by destruct (Habs u Hin).
  - rewrite delete_middle_first by done. simpl. split_and!; try done.
    + split; [|done]. intros _. exists first. split; [|done].
      apply elem_of_app. right. apply list_elem_of_here.
    + intros _. by exists pre, first, post.
    + intros _ Hone. rewrite matches_middle in Hone by done.
      assert (Hpost : Forall (λ x, id x ≠ i) post).
      { simpl in Hone. injection Hone as Hone.
        apply length_zero_iff_nil in Hone.
        apply Forall_forall. intros x Hx Hxi.
        assert (Hm : x ∈ matches i post)
          by (apply list_elem_of_filter; done).
        rewrite Hone in Hm. by apply not_elem_of_nil in Hm. }
      assert (Hall : Forall (λ x, id x ≠ i) (pre ++ post))
        by (by apply Forall_app).
      split; [by apply getById_absent | by apply delete_absent].
Qed.

(** On an array whose ids are pairwise distinct, as the Store means them
    to be, a [delete] that returned [true] leaves no record with the id:
    [getById] answers [undefined] and a second [delete] returns
    [false]. *)
Lemma delete_then_absent_when_ids_distinct (users : list User) (i : string) :
  NoDup (ids users) →
  (userService.delete i users).1 = true →
  userService.getById i (userService.delete i users).2
  = (None, (userService.delete i users).2) ∧
  userService.delete i (userService.delete i users).2
  = (false, (userService.delete i users).2).
Proof.
  intros Hnd Hok.
  destruct (absent_or_first i users)
    as [Habs | (pre & first & post & -> & Hpre & Hid)].
  { rewrite delete_absent in Hok by done. done. }
  rewrite delete_middle_first by done. simpl.
  assert (Hall : Forall (λ x, id x ≠ i) (pre ++ post)).
  { apply Forall_app. split; [done|].
    unfold ids in Hnd. rewrite fmap_app, fmap_cons in Hnd.
    apply NoDup_app in Hnd as (_ & _ & Hnd).
    apply NoDup_cons in Hnd as [Hnot _].
    apply Forall_forall. intros x Hx Hxi. apply Hnot.
    apply list_elem_of_fmap. exists x. split; [congruence|done]. }
  split; [by apply getById_absent | by apply delete_absent].
Qed.

(** C6.  After two users were created from the sample records within
    the millisecond [tick], [delete] of the id both were given returns
    [true]; yet [getById] of that id then answers a record, the second of
    the two, where it should answer [undefined], and a second [delete]
    returns [true] where it should return [false]. *)
Theorem delete_then_getById_finds_duplicate :
  let users := (run [CallCreate tick ann; CallCreate tick bob] seed).2 in
  let i := toString (now tick) in
  let users' := (userService.delete i users).2 in
  (userService.delete i users).1 = true ∧
  (userService.getById i users').1
  = Some (mkUser i "Bob" "bob@x.com" "Admin" (iso tick)) ∧
  (userService.delete i users').1 = true.
Proof. vm_compute. done. Qed.

(** ** Arrays holding several records under one id *)

(** C9.  When two or more records have the id, the array splits around the
    first of them: [getById] answers that record, [update] overwrites that
    slot only, and [delete] returns [true] and removes that slot only, so
    that the later records with the id, one at least, are still in the
    array. *)
Theorem first_match_among_duplicates
    (users : list User) (i : string) (data : UpdateUserDto.t) :
  (2 ≤ length (matches i users))%nat →
  ∃ pre first post,
    users = pre ++ first :: post ∧
    Forall (λ x, id x ≠ i) pre ∧ id first = i ∧
    userService.getById i users = (Some first, users) ∧
    userService.update i data users
    = (Some (spread first data), pre ++ spread first data :: post) ∧
    userService.delete i users = (true, pre ++ post) ∧
    matches i (pre ++ post) = matches i post ∧
    S (length (matches i (pre ++ post))) = length (matches i users) ∧
    (1 ≤ length (matches i post))%nat.
Proof.
  intros Htwo.
  destruct (absent_or_first i users)
    as [Habs | (pre & first & post & -> & Hpre & Hid)].
  { rewrite matches_absent in Htwo by done. simpl in Htwo. lia. }
  assert (Hpp : matches i (pre ++ post) = matches i post).
  { unfold matches. rewrite filter_app. fold (matches i pre).
    by rewrite matches_absent. }
  rewrite matches_middle in Htwo by done. simpl in Htwo.
  exists pre, first, post. split_and!; try done.
  - by apply getById_middle.
  - by apply update_middle.
  - by apply delete_middle_first.
  - rewrite Hpp, matches_middle by done. done.
  - lia.
Qed.

Lemma first_match_among_duplicates_witness :
  let users := (run [CallCreate tick ann; CallCreate tick bob] seed).2 in
  let i := toString (now tick) in
  (2 ≤ length (matches i users))%nat ∧
  ∃ pre first post,
    users = pre ++ first :: post ∧
    userService.getById i users = (Some first, users) ∧
    userService.delete i users = (true, pre ++ post) ∧
    (1 ≤ length (matches i post))%nat.
Proof.
  intros users i.
  assert (Htwo : (2 ≤ length (matches i users))%nat) by (vm_compute; lia).
  split; [exact Htwo|].
  destruct (first_match_among_duplicates users i UpdateUserDto.empty Htwo)
    as (pre & first & post & Hsplit & _ & _ & Hget & _ & Hdel & _ & _ & Hlater).
  by exists pre, first, post.
Defined.

(** ** Ids of the live records *)

Section ids.

Lemma ids_app (l k : list User) : ids (l ++ k) = ids l ++ ids k.
Proof. unfold ids. apply fmap_app. Qed.

Lemma spread_id (user : User) data : id (spread user data) = id user.
Proof. reflexivity. Qed.

(** [update] never changes the ids in the array. *)
Lemma update_ids (users : list User) i data :
  ids (userService.update i data users).2 = ids users.
Proof.
  destruct (absent_or_first i users)
    as [Habs | (pre & first & post & -> & Hpre & Hid)].
  - by rewrite update_absent.
  - rewrite update_middle by done. simpl. by rewrite !ids_app.
Qed.

(** [delete] keeps the ids pairwise distinct. *)
Lemma delete_ids_NoDup (users : list User) i :
  NoDup (ids users) → NoDup (ids (userService.delete i users).2).
Proof.
  intros Hnd. eapply (sublist_NoDup _ (ids users)); [exact Hnd|].
  unfold ids. apply fmap_sublist. unfold userService.delete.
  destruct (list_find (has_id i) users) as [[index ?]|]; simpl.
  - apply sublist_delete.
  - done.
Qed.

(** [create] keeps them distinct when the clock reading it turns into
    the new id is carried by no live record. *)
Lemma create_ids_NoDup (users : list User) clock data :
  NoDup (ids users) → toString (now clock) ∉ ids users →
  NoDup (ids (userService.create clock data users).2).
Proof.
  intros Hnd Hfresh. simpl. rewrite ids_app. apply NoDup_app.
  split_and!; [done| |apply NoDup_singleton].
  intros x Hx ->%list_elem_of_singleton. simpl in Hfresh. done.
Qed.

(** It does not when a live record already carries that reading. *)
Lemma create_ids_collide (users : list User) clock data :
  toString (now clock) ∈ ids users →
  ¬ NoDup (ids (userService.create clock data users).2).
Proof.
  intros Hin. simpl. rewrite ids_app. intros Hnd%NoDup_app.
  destruct Hnd as (_ & Hdisj & _).
  apply (Hdisj _ Hin). simpl. apply list_elem_of_here.
Qed.

(** So a call keeps the ids pairwise distinct unless it is a [create]
    whose clock reading is the id of a live record. *)
Lemma call_ids_NoDup (c : Call) (users : list User) :
  NoDup (ids users) →
  (∀ clock data, c = CallCreate clock data →
     toString (now clock) ∉ ids users) →
  NoDup (ids (call c users).2).
Proof.
  intros Hnd Hfresh. destruct c as [|i|clock data|i data|i].
  - exact Hnd.
  - exact Hnd.
  - apply (create_ids_NoDup users clock data Hnd). by eapply Hfresh.
  - simpl. pose proof (update_ids users i data) as Hu.
    destruct (userService.update i data users) as [r users'].
    simpl in *. by rewrite Hu.
  - simpl. pose proof (delete_ids_NoDup users i Hnd) as Hd.
    by destruct (userService.delete i users) as [r users'].
Qed.

End ids.

(** ** create *)

(** C1.  Two users created while [Date.now()] reads the same millisecond:
    the ids of the sample records and of the array after the first
    [create] are pairwise distinct, the second [create] returns the id of
    the record the first one added, which is still in the array, and the
    ids of the array after it are no longer pairwise distinct. *)
Theorem create_twice_within_a_millisecond :
  let first := (userService.create tick ann seed).1 in
  let users1 := (userService.create tick ann seed).2 in
  let second := (userService.create tick bob users1).1 in
  let users2 := (userService.create tick bob users1).2 in
  (run [CallCreate tick ann; CallCreate tick bob] seed).2 = users2 ∧
  NoDup (ids seed) ∧ NoDup (ids users1) ∧
  first ∈ users1 ∧ id second = id first ∧
  ¬ NoDup (ids users2).
Proof.
  cbv zeta. split_and!.
  - reflexivity.
  - compute_done.
  - compute_done.
  - compute_done.
  - reflexivity.
  - apply create_ids_collide. compute_done.
Qed.

(** C4.  In the same run, [getById] called with the id the second [create]
    returned answers the record of the first [create], which is not the
    record the second one returned. *)
Theorem create_then_getById_answers_older_record :
  let first := (userService.create tick ann seed).1 in
  let users1 := (userService.create tick ann seed).2 in
  let second := (userService.create tick bob users1).1 in
  let users2 := (userService.create tick bob users1).2 in
  (userService.getById (id second) users2).1 = Some first ∧
  first ≠ second ∧
  name first = "Ann" ∧ name second = "Bob".
Proof.
  cbv zeta. split_and!.
  - vm_compute. reflexivity.
  - compute_done.
  - reflexivity.
  - reflexivity.
Qed.

(** Away from such a collision [create] followed by [getById] does answer
    the record just created. *)
Lemma create_then_getById_fresh (users : list User) clock data :
  toString (now clock) ∉ ids users →
  let created := (userService.create clock data users).1 in
  let users' := (userService.create clock data users).2 in
  userService.getById (id created) users' = (Some created, users').
Proof.
  intros Hfresh. cbv zeta. simpl.
  rewrite <- (app_nil_r (users ++ _)), <- app_assoc. simpl.
  apply getById_middle; [|done].
  apply Forall_forall. intros x Hx Hid. apply Hfresh.
  unfold ids. apply list_elem_of_fmap. exists x. by rewrite Hid.
Qed.

(** ** Runs of calls *)

Section runs.

(** Each call, on the length of the array: [create] adds one record, a
    [delete] that returns [true] removes one, nothing else changes it. *)
Lemma call_length (c : Call) (users : list User) :
  length (call c users).2 + deleted [(call c users).1]
  = length users + length (created [(call c users).1]).
Proof.
  destruct c as [|i|clock data|i data|i]; simpl.
  - done.
  - done.
  - rewrite length_app. simpl. unfold deleted. simpl. lia.
  - destruct (userService.update i data users) as [r users'] eqn:Hu.
    simpl. unfold deleted. simpl.
    assert (Hl : length (ids users') = length (ids users)).
    { replace users' with (userService.update i data users).2
        by (by rewrite Hu).
      by rewrite update_ids. }
    unfold ids in Hl. rewrite !length_fmap in Hl. lia.
  - destruct (absent_or_first i users)
      as [Habs | (pre & first & post & -> & Hpre & Hid)].
    + rewrite delete_absent by done. simpl. unfold deleted. simpl. lia.
    + rewrite delete_middle_first by done. simpl. unfold deleted. simpl.
      rewrite !length_app. simpl. lia.
Qed.

(** Each call other than [update], on the contents of the array: what
    is in it afterwards was in it before or was just created, in that
    order. *)
Lemma call_sublist (c : Call) (users : list User) :
  not_update c →
  (call c users).2 `sublist_of` users ++ created [(call c users).1].
Proof.
  destruct c as [|i|clock data|i data|i]; simpl; intros Hc.
  - by rewrite app_nil_r.
  - by rewrite app_nil_r.
  - done.
  - done.
  - unfold userService.delete.
    destruct (list_find (has_id i) users) as [[index ?]|]; simpl;
      rewrite app_nil_r; [apply sublist_delete | done].
Qed.

Lemma run_cons (c : Call) (cs : list Call) (users : list User) :
  run (c :: cs) users
  = ((call c users).1 :: (run cs (call c users).2).1,
     (run cs (call c users).2).2).
Proof.
  simpl. destruct (call c users) as [r users'].
  simpl. by destruct (run cs users').
Qed.

Lemma created_cons (r : Return) (rs : list Return) :
  created (r :: rs) = created [r] ++ created rs.
Proof. unfold created. simpl. by destruct r. Qed.

Lemma deleted_cons (r : Return) (rs : list Return) :
  deleted (r :: rs) = deleted [r] + deleted rs.
Proof.
  unfold deleted. rewrite (filter_cons _ r rs), (filter_cons _ r []).
  by destruct (decide (is_deleted r)).
Qed.

Lemma run_length (cs : list Call) (users : list User) :
  length (run cs users).2 + deleted (run cs users).1
  = length users + length (created (run cs users).1).
Proof.
  revert users. induction cs as [|c cs IH]; intros users.
  - simpl. unfold deleted. simpl. lia.
  - rewrite run_cons. simpl fst. simpl snd.
    rewrite created_cons, deleted_cons, length_app.
    pose proof (IH (call c users).2) as IHc.
    pose proof (call_length c users) as Hc. lia.
Qed.

Lemma run_sublist (cs : list Call) (users : list User) :
  Forall not_update cs →
  (run cs users).2 `sublist_of` users ++ created (run cs users).1.
Proof.
  intros Hcs. revert users.
  induction Hcs as [|c cs Hc _ IH]; intros users.
  - simpl. by rewrite app_nil_r.
  - rewrite run_cons. simpl fst. simpl snd.
    rewrite created_cons, app_assoc.
    etrans; [apply IH|].
    apply sublist_app; [by apply call_sublist | done].
Qed.

End runs.

Section last_written.

(** [update] and [delete] on a non-empty array: the head is the record
    located when it has the id, else the search goes on in the tail. *)
Lemma update_cons (i : string) (data : UpdateUserDto.t) (x : User)
    (l : list User) :
  userService.update i data (x :: l)
  = if decide (id x = i) then (Some (spread x data), spread x data :: l)
    else ((userService.update i data l).1,
          x :: (userService.update i data l).2).
Proof.
  unfold userService.update. simpl list_find.
  unfold has_id at 1. unfold decide at 1, has_id_dec.
  destruct (decide (id x = i)) as [Hx|Hx]; [done|].
  destruct (list_find (has_id i) l) as [[k u]|]; simpl; done.
Qed.

Lemma delete_cons (i : string) (x : User) (l : list User) :
  userService.delete i (x :: l)
  = if decide (id x = i) then (true, l)
    else ((userService.delete i l).1, x :: (userService.delete i l).2).
Proof.
  unfold userService.delete. simpl list_find.
  unfold has_id at 1. unfold decide at 1, has_id_dec.
  destruct (decide (id x = i)) as [Hx|Hx]; [done|].
  destruct (list_find (has_id i) l) as [[k u]|]; simpl; done.
Qed.

(** The merged object of [update] is the record overwritten as the
    specification says. *)
Lemma spread_overwrite (u : User) (data : UpdateUserDto.t) :
  spread u data = overwrite data u.
Proof. by destruct data as [[n|] [e|] [r|]]. Qed.

Lemma update_writeFirst (i : string) (data : UpdateUserDto.t)
    (users : list User) :
  (userService.update i data users).2 = writeFirst i (overwrite data) users.
Proof.
  induction users as [|x l IH]; [done|].
  rewrite update_cons. simpl. case_decide; simpl.
  - by rewrite spread_overwrite.
  - by rewrite IH.
Qed.

Lemma delete_dropFirst (i : string) (users : list User) :
  (userService.delete i users).2 = dropFirst i users.
Proof.
  induction users as [|x l IH]; [done|].
  rewrite delete_cons. simpl. case_decide; simpl; [done|by rewrite IH].
Qed.

(** Every call leaves the array that the specification has it write. *)
Lemma call_written (c : Call) (users : list User) :
  (call c users).2 = written c users.
Proof.
  destruct c as [|i|clock data|i data|i]; simpl.
  - done.
  - done.
  - done.
  - pose proof (update_writeFirst i data users) as H.
    by destruct (userService.update i data users).
  - pose proof (delete_dropFirst i users) as H.
    by destruct (userService.delete i users).
Qed.

Lemma run_written (cs : list Call) (users : list User) :
  (run cs users).2 = foldl (λ log c, written c log) users cs.
Proof.
  revert users. induction cs as [|c cs IH]; intros users; [done|].
  rewrite run_cons. simpl. by rewrite IH, call_written.
Qed.

End last_written.

(** C7.  [getAll] returns the array and leaves it as it is, and [create]
    puts its record at the end of the array.  After any run of calls from
    the empty array, updates and queries included, in which [create] was
    called N times and [delete] returned [true] M times, M is at most N
    and [getAll] returns N - M records: the live records, each in its
    last-written state, in the order of their creation.  When no call of
    the run is an [update], these are records that the [create] calls
    returned, unchanged. *)
Theorem getAll_after_creates_and_deletes (cs : list Call) :
  let rs := (run cs []).1 in
  let users := (run cs []).2 in
  userService.getAll users = (users, users) ∧
  (∀ clock data,
     (userService.create clock data users).2
     = users ++ [(userService.create clock data users).1]) ∧
  (deleted rs ≤ length (created rs))%nat ∧
  length (userService.getAll users).1 = (length (created rs) - deleted rs)%nat ∧
  (userService.getAll users).1 = lastWritten cs ∧
  (Forall not_update cs → (userService.getAll users).1 `sublist_of` created rs).
Proof.
  cbv zeta. pose proof (run_length cs []) as Hlen. simpl in Hlen.
  split_and!.
  - done.
  - done.
  - lia.
  - simpl. lia.
  - simpl. apply run_written.
  - intros Hcs. simpl. by apply (run_sublist cs []).
Qed.

Lemma getAll_after_creates_and_deletes_witness :
  let cs := [CallCreate tick ann; CallCreate tock bob;
             CallDelete (toString (now tick)); CallGetAll] in
  Forall not_update cs ∧
  (userService.getAll (run cs []).2).1 `sublist_of` created (run cs []).1 ∧
  (userService.getAll (run cs []).2).1
  = [mkUser (toString (now tock)) "Bob" "bob@x.com" "Admin" (iso tock)].
Proof.
  intros cs.
  assert (Hcs : Forall not_update cs) by (repeat constructor).
  split; [exact Hcs|]. split.
  - exact (proj2 (proj2 (proj2 (proj2 (proj2
             (getAll_after_creates_and_deletes cs))))) Hcs).
  - vm_compute. reflexivity.
Defined.

(** ** The route handlers *)

(** [falsy] is true on a missing property and on the empty string, and
    on nothing else. *)
Lemma falsy_true (v : option string) :
  falsy v = true ↔ v = None ∨ v = Some "".
Proof.
  destruct v as [s|]; simpl.
  - rewrite bool_decide_eq_true. split; [intros ->; by right|].
    intros [?| [=]]; done.
  - split; [by left|done].
Qed.

Lemma falsy_false (v : option string) :
  falsy v = false ↔ ∃ s, v = Some s ∧ s ≠ "".
Proof.
  destruct v as [s|]; simpl.
  - rewrite bool_decide_eq_false. split.
    + intros Hs. by exists s.
    + by intros (? & [= <-] & ?).
  - split; [done|]. by intros (? & ? & ?).
Qed.

(** A request whose body did not parse is answered with 500, the array
    untouched. *)
Lemma POST_unparsed (clock : Clock) (users : list User) :
  UsersRoute.POST clock None users
  = (NextResponse.mk (JsonError "Failed to create user") 500, users).
Proof. reflexivity. Qed.

Lemma PUT_unparsed (i : string) (users : list User) :
  UserIdRoute.PUT i None users
  = (NextResponse.mk (JsonError "Failed to update user") 500, users).
Proof. reflexivity. Qed.

Lemma GET_lists (users : list User) :
  UsersRoute.GET users = (NextResponse.mk (JsonUsers users) 200, users).
Proof. reflexivity. Qed.

(** C2.  For every parsed body of a POST: when [name], [email] or [role]
    is missing or the empty string, the response is 400 with the error
    [Name, email, and role are required] and the array is as before;
    otherwise the response is 201 with the record [create] returned for
    the three strings of the body, and that record is at the end of the
    array. *)
Theorem POST_validates_presence
    (clock : Clock) (body : CreateUserBody.t) (users : list User) :
  let missing (v : option string) := v = None ∨ v = Some "" in
  let invalid :=
    missing (CreateUserBody.name body) ∨ missing (CreateUserBody.email body)
    ∨ missing (CreateUserBody.role body) in
  (invalid →
     UsersRoute.POST clock (Some body) users
     = (NextResponse.mk (JsonError "Name, email, and role are required") 400,
        users)) ∧
  (¬ invalid →
     ∃ newUser,
       UsersRoute.POST clock (Some body) users
       = (NextResponse.mk (JsonUser newUser) 201, users ++ [newUser]) ∧
       userService.create clock (CreateUserBody.dto body) users
       = (newUser, users ++ [newUser]) ∧
       CreateUserBody.name body = Some (name newUser) ∧
       CreateUserBody.email body = Some (email newUser) ∧
       CreateUserBody.role body = Some (role newUser)).
Proof.
  cbv zeta. unfold UsersRoute.POST.
  destruct (falsy (CreateUserBody.name body)) eqn:Hn;
    [|destruct (falsy (CreateUserBody.email body)) eqn:He;
      [|destruct (falsy (CreateUserBody.role body)) eqn:Hr]]; simpl.
  - split; [done|]. intros Hv. destruct Hv. left. by apply falsy_true.
  - split; [done|]. intros Hv. destruct Hv. right; left. by apply falsy_true.
  - split; [done|]. intros Hv. destruct Hv. right; right. by apply falsy_true.
  - apply falsy_false in Hn as (n & Hn & Hn').
    apply falsy_false in He as (e & He & He').
    apply falsy_false in Hr as (r & Hr & Hr').
    split.
    + rewrite Hn, He, Hr. intros [[[=]|[=]]|[[[=]|[=]]|[[=]|[=]]]]; done.
    + intros _. eexists. split_and!; [reflexivity|reflexivity|..];
        simpl; by rewrite ?Hn, ?He, ?Hr.
Qed.

Lemma POST_validates_presence_witness :
  UsersRoute.POST tick
    (Some (CreateUserBody.mk (Some "") (Some "a@b.com") (Some "User"))) seed
  = (NextResponse.mk (JsonError "Name, email, and role are required") 400,
     seed) ∧
  ∃ newUser,
    UsersRoute.POST tick
      (Some (CreateUserBody.mk (Some "Ann") (Some "ann@x.com") (Some "User")))
      seed
    = (NextResponse.mk (JsonUser newUser) 201, seed ++ [newUser]) ∧
    name newUser = "Ann" ∧ role newUser = "User".
Proof.
  split.
  - apply (proj1 (POST_validates_presence tick
             (CreateUserBody.mk (Some "") (Some "a@b.com") (Some "User"))
             seed)).
    left. by right.
  - destruct (proj2 (POST_validates_presence tick
             (CreateUserBody.mk (Some "Ann") (Some "ann@x.com") (Some "User"))
             seed)) as (newUser & Hpost & _ & Hn & _ & Hr).
    + simpl. intros [[[=]|[=]]|[[[=]|[=]]|[[=]|[=]]]].
    + exists newUser. simpl in Hn, Hr. split_and!; [done|congruence..].
Defined.

(** C8.  When no record has the id, PUT (with any parsed body) and DELETE
    answer 404 with the error [User not found] and leave the array as it
    was.  When some record has it, PUT answers 200 with the record
    [update] returned and DELETE answers 200 with the message
    [User deleted successfully]; the array is the one [update], for
    DELETE the one [delete], left. *)
Theorem PUT_DELETE_not_found_or_ok
    (i : string) (body : UpdateUserDto.t) (users : list User) :
  (Forall (λ u, id u ≠ i) users →
     UserIdRoute.PUT i (Some body) users
     = (NextResponse.mk (JsonError "User not found") 404, users) ∧
     UserIdRoute.DELETE i users
     = (NextResponse.mk (JsonError "User not found") 404, users)) ∧
  ((∃ u, u ∈ users ∧ id u = i) →
     (∃ updated,
        (userService.update i body users).1 = Some updated ∧
        UserIdRoute.PUT i (Some body) users
        = (NextResponse.mk (JsonUser updated) 200,
           (userService.update i body users).2)) ∧
     (userService.delete i users).1 = true ∧
     UserIdRoute.DELETE i users
     = (NextResponse.mk (JsonMessage "User deleted successfully") 200,
        (userService.delete i users).2)).
Proof.
  split.
  - intros Habs. unfold UserIdRoute.PUT, UserIdRoute.DELETE.
    by rewrite update_absent, delete_absent.
  - intros (pre & first & post & -> & Hpre & Hid)%present_first.
    unfold UserIdRoute.PUT, UserIdRoute.DELETE.
    rewrite update_middle, delete_middle_first by done.
    split; [|done]. by exists (spread first body).
Qed.

Lemma PUT_DELETE_not_found_or_ok_witness :
  (Forall (λ u, id u ≠ "does-not-exist") seed ∧
   UserIdRoute.PUT "does-not-exist"
     (Some (UpdateUserDto.mk (Some "X") None None)) seed
   = (NextResponse.mk (JsonError "User not found") 404, seed)) ∧
  ((∃ u, u ∈ seed ∧ id u = "3") ∧
   UserIdRoute.DELETE "3" seed
   = (NextResponse.mk (JsonMessage "User deleted successfully") 200,
      (userService.delete "3" seed).2)).
Proof.
  assert (Habs : Forall (λ u, id u ≠ "does-not-exist") seed).
  { unfold seed, users0. repeat constructor; simpl; discriminate. }
  assert (Hex : ∃ u, u ∈ seed ∧ id u = "3").
  { exists (mkUser "3" "Bob Johnson" "bob@example.com" "User" boot).
    split; [|reflexivity].
    apply list_elem_of_further, list_elem_of_further, list_elem_of_here. }
  split; (split; [done|]).
  - exact (proj1 (proj1 (PUT_DELETE_not_found_or_ok "does-not-exist"
             (UpdateUserDto.mk (Some "X") None None) seed) Habs)).
  - exact (proj2 (proj2 (proj2 (PUT_DELETE_not_found_or_ok "3"
             UpdateUserDto.empty seed) Hex))).
Defined.

(** C10.  When some record has the id, [update] succeeds whatever [data]
    carries and PUT answers 200 with the record it returned; that record
    is what [getById] answers for the id afterwards, and each of [name],
    [email], [role] for which [data] carries the empty string is the
    empty string in it. *)
Theorem update_stores_empty_strings
    (users : list User) (i : string) (data : UpdateUserDto.t) :
  (∃ u, u ∈ users ∧ id u = i) →
  ∃ updated users',
    userService.update i data users = (Some updated, users') ∧
    UserIdRoute.PUT i (Some data) users
    = (NextResponse.mk (JsonUser updated) 200, users') ∧
    userService.getById i users' = (Some updated, users') ∧
    (UpdateUserDto.name data = Some "" → name updated = "") ∧
    (UpdateUserDto.email data = Some "" → email updated = "") ∧
    (UpdateUserDto.role data = Some "" → role updated = "").
Proof.
  intros (pre & first & post & -> & Hpre & Hid)%present_first.
  exists (spread first data), (pre ++ spread first data :: post).
  unfold UserIdRoute.PUT. rewrite update_middle by done.
  split_and!; try done.
  - by apply getById_middle.
  - intros H. simpl. by rewrite H.
  - intros H. simpl. by rewrite H.
  - intros H. simpl. by rewrite H.
Qed.

Lemma update_stores_empty_strings_witness :
  (∃ u, u ∈ seed ∧ id u = "1") ∧
  ∃ updated users',
    UserIdRoute.PUT "1" (Some (UpdateUserDto.mk (Some "") None None)) seed
    = (NextResponse.mk (JsonUser updated) 200, users') ∧
    userService.getById "1" users' = (Some updated, users') ∧
    name updated = "".
Proof.
  assert (Hex : ∃ u, u ∈ seed ∧ id u = "1").
  { exists (mkUser "1" "John Doe" "john@example.com" "Admin" boot).
    split; [apply list_elem_of_here | reflexivity]. }
  split; [exact Hex|].
  destruct (update_stores_empty_strings seed "1"
              (UpdateUserDto.mk (Some "") None None) Hex)
    as (updated & users' & _ & Hput & Hget & Hname & _).
  exists updated, users'. split_and!; [done..|]. by apply Hname.
Defined.

(** ** Further properties of the service *)

Section lookups.

(** Splitting [matches] over an append and a cons. *)
Lemma matches_app (i : string) (l k : list User) :
  matches i (l ++ k) = matches i l ++ matches i k.
Proof. unfold matches. apply filter_app. Qed.

Lemma matches_cons_ne (i : string) (x : User) (l : list User) :
  id x ≠ i → matches i (x :: l) = matches i l.
Proof. intros Hx. unfold matches. by rewrite filter_cons_False. Qed.

Lemma matches_cons_eq (i : string) (x : User) (l : list User) :
  id x = i → matches i (x :: l) = x :: matches i l.
Proof. intros Hx. unfold matches. by rewrite filter_cons_True. Qed.

(** [find] answers the head of the records with the id. *)
Lemma getById_head (i : string) (users : list User) :
  (userService.getById i users).1 = head (matches i users).
Proof.
  destruct (absent_or_first i users)
    as [Habs | (pre & first & post & -> & Hpre & Hid)].
  - rewrite getById_absent by done. by rewrite matches_absent.
  - rewrite getById_middle, matches_middle by done. done.
Qed.

(** Dropping a record with another id does not touch the records with
    the id [j]. *)
Lemma matches_drop_other (j : string) (pre post : list User) x :
  id x ≠ j → matches j (pre ++ post) = matches j (pre ++ x :: post).
Proof. intros Hx. by rewrite !matches_app, matches_cons_ne. Qed.

End lookups.

(** X1.  [getById] answers the first, in array order, of the records with
    the id; it answers [undefined] exactly when the id is not among the
    ids in the array, and whatever it answers is in the array and has the
    id.  It leaves the array as it is. *)
Theorem getById_answers_first_match (i : string) (users : list User) :
  userService.getById i users = (head (matches i users), users) ∧
  ((userService.getById i users).1 = None ↔ i ∉ ids users) ∧
  (∀ u, (userService.getById i users).1 = Some u → u ∈ users ∧ id u = i).
Proof.
  split_and!.
  - pose proof (getById_head i users) as H. unfold userService.getById in *.
    simpl in *. by rewrite H.
  - destruct (absent_or_first i users)
      as [Habs | (pre & first & post & -> & Hpre & Hid)].
    + rewrite getById_absent by done. split; [|done]. intros _.
      unfold ids. intros (u & Hu & Hin)%list_elem_of_fmap.
      rewrite Forall_forall in Habs. by apply (Habs u Hin).
    + rewrite getById_middle by done. split; [done|]. intros Hno.
      destruct Hno. unfold ids. apply list_elem_of_fmap. exists first.
      split; [done|]. apply elem_of_app. right. apply list_elem_of_here.
  - intros u. rewrite getById_head. intros (l' & Hl)%head_Some.
    assert (Hin : u ∈ matches i users) by (rewrite Hl; apply list_elem_of_here).
    apply list_elem_of_filter in Hin as [Hid Hin]. done.
Qed.

Lemma getById_answers_first_match_witness :
  (userService.getById "2" seed).1
  = Some (mkUser "2" "Jane Smith" "jane@example.com" "User" boot) ∧
  mkUser "2" "Jane Smith" "jane@example.com" "User" boot ∈ seed.
Proof.
  assert (H : (userService.getById "2" seed).1
              = Some (mkUser "2" "Jane Smith" "jane@example.com" "User" boot))
    by reflexivity.
  split; [exact H|].
  exact (proj1 (proj2 (proj2 (getById_answers_first_match "2" seed)) _ H)).
Defined.

(** X4.  [delete] acts on the records with the id only, and on the first
    of them only: the records with another id stay, in their order, the
    records with the id lose their first, the array shrinks by one when
    [true] is returned and not at all otherwise. *)
Theorem delete_drops_first_match_only (i : string) (users : list User) :
  let ok := (userService.delete i users).1 in
  let users' := (userService.delete i users).2 in
  matches i users' = tail (matches i users) ∧
  (∀ j, j ≠ i → matches j users' = matches j users) ∧
  filter (λ u, id u ≠ i) users' = filter (λ u, id u ≠ i) users ∧
  users' `sublist_of` users ∧
  length users = (length users' + (if ok then 1 else 0))%nat.
Proof.
  cbv zeta.
  destruct (absent_or_first i users)
    as [Habs | (pre & first & post & -> & Hpre & Hid)].
  - rewrite delete_absent by done. simpl. split_and!.
    + by rewrite matches_absent.
    + done.
    + done.
    + done.
    + lia.
  - rewrite delete_middle_first by done. simpl. split_and!.
    + rewrite matches_middle by done. simpl.
      by rewrite matches_app, matches_absent.
    + intros j Hj. apply matches_drop_other. congruence.
    + rewrite !filter_app. by rewrite (filter_cons_False _ first) by auto.
    + apply sublist_app; [done|]. by apply sublist_cons.
    + rewrite !length_app. simpl. lia.
Qed.

Lemma delete_drops_first_match_only_witness :
  "2" ≠ "1" ∧
  matches "2" (userService.delete "1" seed).2 = matches "2" seed.
Proof.
  assert (H : "2" ≠ "1") by discriminate.
  split; [exact H|].
  exact (proj1 (proj2 (delete_drops_first_match_only "1" seed)) "2" H).
Defined.

(** X5.  [delete] on one id does not change what [getById] answers for
    another id. *)
Theorem getById_unaffected_by_delete_of_other_id
    (i j : string) (users : list User) :
  j ≠ i →
  (userService.getById j (userService.delete i users).2).1
  = (userService.getById j users).1.
Proof.
  intros Hj. rewrite !getById_head.
  destruct (absent_or_first i users)
    as [Habs | (pre & first & post & -> & Hpre & Hid)].
  - by rewrite delete_absent.
  - rewrite delete_middle_first by done. simpl.
    assert (Hf : id first ≠ j) by congruence.
    by rewrite (matches_drop_other j pre post first).
Qed.

Lemma getById_unaffected_by_delete_of_other_id_witness :
  "3" ≠ "1" ∧
  (userService.getById "3" (userService.delete "1" seed).2).1
  = (userService.getById "3" seed).1.
Proof.
  assert (H : "3" ≠ "1") by discriminate.
  split; [exact H|].
  exact (getById_unaffected_by_delete_of_other_id "1" "3" seed H).
Defined.

(** X6.  After [create], [getById] answers for every id what it answered
    before when that was a record; when it was [undefined], it answers
    the new record for the new record's id and [undefined] for any
    other. *)
Theorem create_keeps_earlier_lookups
    (clock : Clock) (data : CreateUserDto.t) (i : string)
    (users : list User) :
  let newUser := (userService.create clock data users).1 in
  let users' := (userService.create clock data users).2 in
  (userService.getById i users').1
  = match (userService.getById i users).1 with
    | Some u => Some u
    | None => if decide (i = id newUser) then Some newUser else None
    end.
Proof.
  cbv zeta. rewrite !getById_head. simpl. rewrite matches_app.
  destruct (matches i users) as [|u l] eqn:Hm; simpl; [|done].
  case_decide as Hi.
  - by rewrite matches_cons_eq.
  - by rewrite matches_cons_ne.
Qed.

(** X7.  [create] followed by [delete] of the id of the record it
    returned gives the array back, when no record had that id before. *)
Theorem create_then_delete_restores
    (clock : Clock) (data : CreateUserDto.t) (users : list User) :
  id (userService.create clock data users).1 ∉ ids users →
  userService.delete (id (userService.create clock data users).1)
    (userService.create clock data users).2
  = (true, users).
Proof.
  intros Hfresh.
  set (newUser := (userService.create clock data users).1) in *.
  assert (Habs : Forall (λ x, id x ≠ id newUser) users).
  { apply Forall_forall. intros x Hx Hid. apply Hfresh.
    unfold ids. apply list_elem_of_fmap. exists x. by rewrite Hid. }
  change (userService.create clock data users).2 with (users ++ [newUser]).
  rewrite delete_middle_first by done. by rewrite app_nil_r.
Qed.

Lemma create_then_delete_restores_witness :
  (id (userService.create tick ann seed).1 ∉ ids seed) ∧
  userService.delete (id (userService.create tick ann seed).1)
    (userService.create tick ann seed).2 = (true, seed).
Proof.
  assert (H : id (userService.create tick ann seed).1 ∉ ids seed)
    by compute_done.
  split; [exact H|].
  exact (create_then_delete_restores tick ann seed H).
Defined.

(** ** When the ids stay pairwise distinct *)

(** X8.  Over any run of calls other than [update], from an array whose
    ids are pairwise distinct: when the ids of the records the [create]
    calls returned are pairwise distinct and none of them is an id of
    the array the run starts from, the ids in the array at the end are
    pairwise distinct. *)
Theorem ids_distinct_when_created_ids_differ
    (cs : list Call) (users : list User) :
  Forall not_update cs →
  NoDup (ids users) →
  NoDup (ids (created (run cs users).1)) →
  (∀ u, u ∈ created (run cs users).1 → id u ∉ ids users) →
  NoDup (ids (run cs users).2).
Proof.
  intros Hcs Hnd Hcr Hfresh.
  apply (sublist_NoDup _ (ids (users ++ created (run cs users).1))).
  - rewrite ids_app. apply NoDup_app. split_and!; [done| |done].
    intros s Hs (u & -> & Hu)%list_elem_of_fmap. by apply (Hfresh u Hu).
  - unfold ids. apply fmap_sublist. by apply run_sublist.
Qed.

Lemma ids_distinct_when_created_ids_differ_witness :
  let cs := [CallCreate tick ann; CallDelete "2"; CallCreate tock bob;
             CallGetById "1"] in
  Forall not_update cs ∧
  NoDup (ids seed) ∧
  NoDup (ids (created (run cs seed).1)) ∧
  (∀ u, u ∈ created (run cs seed).1 → id u ∉ ids seed) ∧
  NoDup (ids (run cs seed).2).
Proof.
  intros cs.
  assert (Hcs : Forall not_update cs) by (repeat constructor).
  assert (Hnd : NoDup (ids seed)) by compute_done.
  assert (Hcr : NoDup (ids (created (run cs seed).1))) by compute_done.
  assert (Hfresh : ∀ u, u ∈ created (run cs seed).1 → id u ∉ ids seed).
  { intros u Hu. vm_compute in Hu.
    repeat (apply elem_of_cons in Hu as [->|Hu]; [compute_done|]).
    by apply elem_of_nil in Hu. }
  split_and!; [done..|].
  exact (ids_distinct_when_created_ids_differ cs seed Hcs Hnd Hcr Hfresh).
Defined.

(** ** Replies *)

(** X10.  Whatever the request, the status of the reply is 200, 201, 400,
    404 or 500; the body is an error object exactly when the status is
    400 or more, and then the array is as it was before the request. *)
Theorem error_replies_leave_the_array (r : Request) (users : list User) :
  let response := (route r users).1 in
  let users' := (route r users).2 in
  NextResponse.status response ∈ [200; 201; 400; 404; 500]%Z ∧
  ((∃ e, NextResponse.body response = JsonError e)
   ↔ (400 ≤ NextResponse.status response)%Z) ∧
  ((400 ≤ NextResponse.status response)%Z → users' = users).
Proof.
  cbv zeta. destruct r as [|clock [body|]|i [body|]|i]; simpl.
  - split_and!; [compute_done| |done]. split; [by intros [? ?]|]; lia.
  - unfold UsersRoute.POST.
    destruct (falsy (CreateUserBody.name body)
              || falsy (CreateUserBody.email body)
              || falsy (CreateUserBody.role body)); simpl.
    + split_and!; [compute_done| |done]. split; [lia|]. by eexists.
    + split_and!; [compute_done| |lia]. split; [by intros [? ?]|]; lia.
  - split_and!; [compute_done| |done]. split; [lia|]. by eexists.
  - destruct (absent_or_first i users)
      as [Habs | (pre & first & post & -> & Hpre & Hid)].
    + rewrite update_absent by done. simpl.
      split_and!; [compute_done| |done]. split; [lia|]. by eexists.
    + rewrite update_middle by done. simpl.
      split_and!; [compute_done| |lia]. split; [by intros [? ?]|]; lia.
  - split_and!; [compute_done| |done]. split; [lia|]. by eexists.
  - unfold UserIdRoute.DELETE.
    destruct (absent_or_first i users)
      as [Habs | (pre & first & post & -> & Hpre & Hid)].
    + rewrite delete_absent by done. simpl.
      split_and!; [compute_done| |done]. split; [lia|]. by eexists.
    + rewrite delete_middle_first by done. simpl.
      split_and!; [compute_done| |lia]. split; [by intros [? ?]|]; lia.
Qed.

Lemma error_replies_leave_the_array_witness :
  let r := ReqPUT "does-not-exist"
             (Some (UpdateUserDto.mk (Some "X") None None)) in
  (400 ≤ NextResponse.status (route r seed).1)%Z ∧ (route r seed).2 = seed.
Proof.
  intros r.
  assert (H : (400 ≤ NextResponse.status (route r seed).1)%Z)
    by (vm_compute; discriminate).
  split; [exact H|].
  exact (proj2 (proj2 (error_replies_leave_the_array r seed)) H).
Defined.

(** ** The table component against the server *)

Section client.

(** The POST of a form whose three fields are filled in. *)
Lemma POST_filled (clock : Clock) (data : CreateUserDto.t)
    (server : list User) :
  CreateUserDto.name data ≠ "" → CreateUserDto.email data ≠ "" →
  CreateUserDto.role data ≠ "" →
  UsersRoute.POST clock (Some (createBody data)) server
  = (NextResponse.mk
       (JsonUser (userService.create clock data server).1) 201,
     (userService.create clock data server).2).
Proof.
  intros Hn He Hr. unfold UsersRoute.POST, createBody. simpl.
  rewrite !bool_decide_eq_false_2 by done. simpl.
  by destruct data.
Qed.

(** The POST of a form with a blank field. *)
Lemma POST_blank (clock : Clock) (data : CreateUserDto.t)
    (server : list User) :
  CreateUserDto.name data = "" ∨ CreateUserDto.email data = ""
  ∨ CreateUserDto.role data = "" →
  UsersRoute.POST clock (Some (createBody data)) server
  = (NextResponse.mk (JsonError "Name, email, and role are required") 400,
     server).
Proof.
  intros H. unfold UsersRoute.POST, createBody. simpl.
  destruct H as [->| [->| ->]]; simpl.
  - done.
  - by destruct (bool_decide _).
  - by destruct (bool_decide _), (bool_decide _).
Qed.

(** [fetchUsers] never touches the server, the modal or the user being
    edited, and always ends the loading state. *)
Lemma fetchUsers_spec (net : Net) (st : UserTable.State)
    (server : list User) :
  UserTable.fetchUsers net st server
  = (UserTable.mk
       (if net is Online then JsonUsers server else UserTable.users st)
       (UserTable.isModalOpen st) (UserTable.editingUser st) false,
     server).
Proof. by destruct net. Qed.

(** With all three fields given, the merged object has them. *)
Lemma spread_updateBody (u : User) (data : CreateUserDto.t) :
  spread u (updateBody data)
  = mkUser (id u) (CreateUserDto.name data) (CreateUserDto.email data)
           (CreateUserDto.role data) (createdAt u).
Proof. reflexivity. Qed.

(** [handleUpdate] with the reply arriving, on an array split around the
    first record with the id of the user being edited. *)
Lemma handleUpdate_present
    (net2 : Net) (data : CreateUserDto.t) (st : UserTable.State)
    (user first : User) (pre post : list User) :
  UserTable.editingUser st = Some user →
  Forall (λ x, id x ≠ id user) pre → id first = id user →
  UserTable.handleUpdate Online net2 data st (pre ++ first :: post)
  = (UserTable.mk
       (if net2 is Online
        then JsonUsers (pre ++ spread first (updateBody data) :: post)
        else UserTable.users st)
       false None false,
     pre ++ spread first (updateBody data) :: post).
Proof.
  intros Hed Hpre Hid. unfold UserTable.handleUpdate, fetch.
  rewrite Hed. unfold UserIdRoute.PUT.
  rewrite (update_middle (id user) pre post first (updateBody data) Hpre Hid).
  simpl. rewrite fetchUsers_spec. done.
Qed.

End client.

(** X11.  Submitting the create form with a blank name, email or role
    changes nothing: whatever happens on the network, the server's array
    and the whole state of the table (the modal still open, the list not
    refreshed) are as before. *)
Theorem handleCreate_blank_field_changes_nothing
    (net1 net2 : Net) (clock : Clock) (data : CreateUserDto.t)
    (st : UserTable.State) (server : list User) :
  CreateUserDto.name data = "" ∨ CreateUserDto.email data = ""
  ∨ CreateUserDto.role data = "" →
  UserTable.handleCreate net1 net2 clock data st server = (st, server).
Proof.
  intros H. unfold UserTable.handleCreate, fetch.
  rewrite (POST_blank clock data server H). by destruct net1.
Qed.

Lemma handleCreate_blank_field_changes_nothing_witness :
  (CreateUserDto.name (CreateUserDto.mk "" "a@b.com" "User") = ""
   ∨ CreateUserDto.email (CreateUserDto.mk "" "a@b.com" "User") = ""
   ∨ CreateUserDto.role (CreateUserDto.mk "" "a@b.com" "User") = "") ∧
  UserTable.handleCreate Online Online tick
    (CreateUserDto.mk "" "a@b.com" "User")
    (UserTable.openCreateModal UserTable.initial) seed
  = (UserTable.openCreateModal UserTable.initial, seed).
Proof.
  assert (H : CreateUserDto.name (CreateUserDto.mk "" "a@b.com" "User") = ""
              ∨ CreateUserDto.email (CreateUserDto.mk "" "a@b.com" "User") = ""
              ∨ CreateUserDto.role (CreateUserDto.mk "" "a@b.com" "User") = "")
    by (by left).
  split; [exact H|].
  exact (handleCreate_blank_field_changes_nothing Online Online tick _ _ seed H).
Defined.

(** X12.  Submitting the create form with all three fields filled in:
    when the request does not reach the server nothing changes; when it
    does, the server appends the record made of the three fields, the
    clock reading as id and the clock's ISO string.  When the reply is
    lost the table's state stays as it was, the modal open, although the
    record was created; when the reply arrives the modal closes, loading
    has ended, and the list is the server's array if the refresh got
    through and the old list if not. *)
Theorem handleCreate_filled
    (net1 net2 : Net) (clock : Clock) (data : CreateUserDto.t)
    (st : UserTable.State) (server : list User) :
  CreateUserDto.name data ≠ "" → CreateUserDto.email data ≠ "" →
  CreateUserDto.role data ≠ "" →
  let newUser :=
    mkUser (toString (now clock)) (CreateUserDto.name data)
           (CreateUserDto.email data) (CreateUserDto.role data)
           (iso clock) in
  UserTable.handleCreate net1 net2 clock data st server
  = match net1 with
    | Offline => (st, server)
    | ReplyLost => (st, server ++ [newUser])
    | Online =>
        (UserTable.mk
           (if net2 is Online then JsonUsers (server ++ [newUser])
            else UserTable.users st)
           false (UserTable.editingUser st) false,
         server ++ [newUser])
    end.
Proof.
  intros Hn He Hr. cbv zeta. unfold UserTable.handleCreate, fetch.
  rewrite (POST_filled clock data server Hn He Hr).
  destruct net1; simpl; [done|done|].
  rewrite fetchUsers_spec. done.
Qed.

Lemma handleCreate_filled_witness :
  CreateUserDto.name ann ≠ "" ∧ CreateUserDto.email ann ≠ "" ∧
  CreateUserDto.role ann ≠ "" ∧
  UserTable.handleCreate Online Online tick ann
    (UserTable.openCreateModal UserTable.initial) seed
  = (UserTable.mk
       (JsonUsers (seed ++ [mkUser "1700000000000" "Ann" "ann@x.com" "User"
                                   "2023-11-14T22:13:20.000Z"]))
       false None false,
     seed ++ [mkUser "1700000000000" "Ann" "ann@x.com" "User"
                     "2023-11-14T22:13:20.000Z"]).
Proof.
  assert (Hn : CreateUserDto.name ann ≠ "") by discriminate.
  assert (He : CreateUserDto.email ann ≠ "") by discriminate.
  assert (Hr : CreateUserDto.role ann ≠ "") by discriminate.
  split_and!; [done..|].
  exact (handleCreate_filled Online Online tick ann
           (UserTable.openCreateModal UserTable.initial) seed Hn He Hr).
Defined.

(** X13.  Submitting the edit form for a user whose id, one the server
    issued, is on the server, the reply arriving: the first record with that id gets the three
    fields of the form and keeps its [id] and [createdAt], every other
    record stays; the modal closes, no user is being edited any more,
    loading has ended, and the list is the server's array if the refresh
    got through and the old list if not. *)
Theorem handleUpdate_overwrites_three_fields
    (net2 : Net) (data : CreateUserDto.t) (st : UserTable.State)
    (user first : User) (pre post : list User) :
  issued (id user) →
  UserTable.editingUser st = Some user →
  Forall (λ x, id x ≠ id user) pre → id first = id user →
  let updated :=
    mkUser (id first) (CreateUserDto.name data) (CreateUserDto.email data)
           (CreateUserDto.role data) (createdAt first) in
  UserTable.handleUpdate Online net2 data st (pre ++ first :: post)
  = (UserTable.mk
       (if net2 is Online then JsonUsers (pre ++ updated :: post)
        else UserTable.users st)
       false None false,
     pre ++ updated :: post).
Proof.
  intros _ Hed Hpre Hid. cbv zeta.
  by rewrite (handleUpdate_present net2 data st user first pre post
                Hed Hpre Hid).
Qed.

Lemma handleUpdate_overwrites_three_fields_witness :
  let jane := mkUser "2" "Jane Smith" "jane@example.com" "User" boot in
  let st := UserTable.openEditModal jane UserTable.initial in
  let pre := [mkUser "1" "John Doe" "john@example.com" "Admin" boot] in
  let post := [mkUser "3" "Bob Johnson" "bob@example.com" "User" boot] in
  issued (id jane) ∧
  UserTable.editingUser st = Some jane ∧
  Forall (λ x, id x ≠ id jane) pre ∧ id jane = id jane ∧
  UserTable.handleUpdate Online Online
    (CreateUserDto.mk "Jane Doe" "jane@example.com" "Manager") st
    (pre ++ jane :: post)
  = (UserTable.mk
       (JsonUsers
          (pre ++ mkUser "2" "Jane Doe" "jane@example.com" "Manager" boot
               :: post))
       false None false,
     pre ++ mkUser "2" "Jane Doe" "jane@example.com" "Manager" boot :: post).
Proof.
  intros jane st pre post.
  assert (Hed : UserTable.editingUser st = Some jane) by reflexivity.
  assert (Hpre : Forall (λ x, id x ≠ id jane) pre)
    by (repeat constructor; simpl; discriminate).
  assert (Hiss : issued (id jane)) by (by exists 2%Z).
  split_and!; [done..|].
  exact (handleUpdate_overwrites_three_fields Online
           (CreateUserDto.mk "Jane Doe" "jane@example.com" "Manager")
           st jane jane pre post Hiss Hed Hpre eq_refl).
Defined.

(** X14.  An update or a delete sent for an id, one the server issued,
    that is no longer on the server is answered 404 and changes nothing, whatever happens on the
    network: the server's array and the whole state of the table are as
    before; in particular the list is not refreshed and the edit form
    stays open. *)
Theorem stale_id_changes_nothing
    (i : string) (confirm : bool) (net1 net2 : Net)
    (data : CreateUserDto.t) (st : UserTable.State) (server : list User) :
  issued i →
  Forall (λ x, id x ≠ i) server →
  UserTable.handleDelete confirm net1 net2 i st server = (st, server) ∧
  (∀ user, UserTable.editingUser st = Some user → id user = i →
     UserTable.handleUpdate net1 net2 data st server = (st, server)).
Proof.
  intros _ Habs. split.
  - unfold UserTable.handleDelete, fetch, UserIdRoute.DELETE.
    rewrite (delete_absent i server Habs). by destruct confirm, net1.
  - intros user Hed <-. unfold UserTable.handleUpdate, fetch, UserIdRoute.PUT.
    rewrite Hed.
    rewrite (update_absent (id user) server (updateBody data) Habs).
    by destruct net1.
Qed.

Lemma stale_id_changes_nothing_witness :
  let gone := mkUser "9" "Gone" "gone@x.com" "User" boot in
  let st := UserTable.openEditModal gone UserTable.initial in
  issued "9" ∧
  Forall (λ x, id x ≠ "9") seed ∧
  UserTable.handleDelete true Online Online "9" st seed = (st, seed) ∧
  UserTable.handleUpdate Online Online ann st seed = (st, seed).
Proof.
  intros gone st.
  assert (Habs : Forall (λ x, id x ≠ "9") seed)
    by (repeat constructor; simpl; discriminate).
  assert (Hiss : issued "9") by (by exists 9%Z).
  split; [exact Hiss|]. split; [exact Habs|].
  destruct (stale_id_changes_nothing "9" true Online Online ann st seed
              Hiss Habs) as [Hdel Hupd].
  split; [exact Hdel|]. by apply (Hupd gone).
Defined.

(** X15.  A delete the user does not confirm sends nothing and changes
    nothing.  A confirmed delete of an id, one the server issued, that is
    on the server: when the
    request does not reach the server nothing changes; when it does, the
    first record with the id leaves the server's array and the others
    stay.  When the reply is lost the table's state stays as it was; when
    it arrives, loading has ended, the list is the server's array if the
    refresh got through and the old list if not, and the modal and the
    user being edited are as they were. *)
Theorem handleDelete_present
    (net1 net2 : Net) (i : string) (st : UserTable.State)
    (first : User) (pre post : list User) :
  issued i →
  Forall (λ x, id x ≠ i) pre → id first = i →
  UserTable.handleDelete false net1 net2 i st (pre ++ first :: post)
  = (st, pre ++ first :: post) ∧
  UserTable.handleDelete true net1 net2 i st (pre ++ first :: post)
  = match net1 with
    | Offline => (st, pre ++ first :: post)
    | ReplyLost => (st, pre ++ post)
    | Online =>
        (UserTable.mk
           (if net2 is Online then JsonUsers (pre ++ post)
            else UserTable.users st)
           (UserTable.isModalOpen st) (UserTable.editingUser st) false,
         pre ++ post)
    end.
Proof.
  intros _ Hpre Hid. split; [done|].
  unfold UserTable.handleDelete, fetch, UserIdRoute.DELETE.
  rewrite (delete_middle_first i pre post first Hpre Hid).
  destruct net1; simpl; [done|done|].
  by rewrite fetchUsers_spec.
Qed.

Lemma handleDelete_present_witness :
  let john := mkUser "1" "John Doe" "john@example.com" "Admin" boot in
  let jane := mkUser "2" "Jane Smith" "jane@example.com" "User" boot in
  let bobj := mkUser "3" "Bob Johnson" "bob@example.com" "User" boot in
  issued "2" ∧ Forall (λ x, id x ≠ "2") [john] ∧ id jane = "2" ∧
  UserTable.handleDelete true Online Online "2" UserTable.initial
    ([john] ++ jane :: [bobj])
  = (UserTable.mk (JsonUsers [john; bobj]) false None false, [john; bobj]).
Proof.
  intros john jane bobj.
  assert (Hpre : Forall (λ x, id x ≠ "2") [john])
    by (repeat constructor; simpl; discriminate).
  assert (Hiss : issued "2") by (by exists 2%Z).
  split_and!; [done..|].
  exact (proj2 (handleDelete_present Online Online "2" UserTable.initial
                  jane [john] [bobj] Hiss Hpre eq_refl)).
Defined.

(** X16.  Opening the edit form on the server's record for an id, one the
    server issued, and submitting it as it was first filled in: when the record's role is
    not empty the server's array stays as it is; when it is empty, the
    record's role becomes [User], the default the form fills in, and
    nothing else changes. *)
Theorem submit_unedited_form
    (net2 : Net) (clock : Clock) (st : UserTable.State) (user : User)
    (pre post : list User) :
  issued (id user) →
  UserTable.editingUser st = Some user →
  Forall (λ x, id x ≠ id user) pre →
  let server' :=
    (UserTable.onSubmit Online net2 clock (initialFormData (Some user)) st
       (pre ++ user :: post)).2 in
  (role user ≠ "" → server' = pre ++ user :: post) ∧
  (role user = "" →
     server'
     = pre ++ mkUser (id user) (name user) (email user) "User"
                     (createdAt user) :: post).
Proof.
  intros _ Hed Hpre. cbv zeta. unfold UserTable.onSubmit. rewrite Hed.
  rewrite (handleUpdate_present net2
             (initialFormData (Some user)) st user user pre post Hed Hpre
             eq_refl).
  simpl.
  assert (Hn : or_string (name user) "" = name user)
    by (unfold or_string; by case_decide).
  assert (He : or_string (email user) "" = email user)
    by (unfold or_string; by case_decide).
  rewrite Hn, He. unfold or_string. split.
  - intros Hr. rewrite decide_False by done. by destruct user.
  - intros Hr. by rewrite decide_True by done.
Qed.

Lemma submit_unedited_form_witness :
  let jane := mkUser "2" "Jane Smith" "jane@example.com" "User" boot in
  let st := UserTable.openEditModal jane UserTable.initial in
  let pre := [mkUser "1" "John Doe" "john@example.com" "Admin" boot] in
  let post := [mkUser "3" "Bob Johnson" "bob@example.com" "User" boot] in
  issued (id jane) ∧
  UserTable.editingUser st = Some jane ∧
  Forall (λ x, id x ≠ id jane) pre ∧
  role jane ≠ "" ∧
  (UserTable.onSubmit Online Online tick (initialFormData (Some jane)) st
     (pre ++ jane :: post)).2 = pre ++ jane :: post.
Proof.
  intros jane st pre post.
  assert (Hed : UserTable.editingUser st = Some jane) by reflexivity.
  assert (Hpre : Forall (λ x, id x ≠ id jane) pre)
    by (repeat constructor; simpl; discriminate).
  assert (Hr : role jane ≠ "") by discriminate.
  assert (Hiss : issued (id jane)) by (by exists 2%Z).
  split_and!; [done..|].
  exact (proj1 (submit_unedited_form Online tick st jane pre post
                  Hiss Hed Hpre) Hr).
Defined.

(** ** What the table's state never is *)

Section table_invariant.

(** One event keeps the three facts of X17 and X18. *)
Lemma handle_keeps (e : UserTable.Event) (st : UserTable.State)
    (server : list User) :
  (∃ l, UserTable.users st = JsonUsers l) ∧
  (is_Some (UserTable.editingUser st) → UserTable.isModalOpen st = true) ∧
  (UserTable.isLoading st = true → UserTable.users st = JsonUsers []) →
  let st' := (UserTable.handle e st server).1 in
  (∃ l, UserTable.users st' = JsonUsers l) ∧
  (is_Some (UserTable.editingUser st') → UserTable.isModalOpen st' = true) ∧
  (UserTable.isLoading st' = true → UserTable.users st' = JsonUsers []).
Proof.
  intros (Harr & Hmodal & Hload). cbv zeta.
  assert (Hfetch : ∀ net srv,
    let st' := (UserTable.fetchUsers net st srv).1 in
    (∃ l, UserTable.users st' = JsonUsers l) ∧
    (is_Some (UserTable.editingUser st') → UserTable.isModalOpen st' = true) ∧
    (UserTable.isLoading st' = true → UserTable.users st' = JsonUsers [])).
  { intros net srv. rewrite fetchUsers_spec. simpl. split_and!; [|done|done].
    destruct net; eauto. }
  destruct e as [net| |user|i confirm net1 net2| |data net1 net2 clock]; simpl.
  - apply Hfetch.
  - split_and!; [done| by intros [? [=]] |done].
  - done.
  - unfold UserTable.handleDelete. destruct confirm; [|done].
    destruct (fetch net1 (UserIdRoute.DELETE i) server) as [[response|] srv];
      [|done].
    destruct (ok response); [apply Hfetch | done].
  - split_and!; [done| by intros [? [=]] |done].
  - unfold UserTable.onSubmit.
    destruct (UserTable.editingUser st) as [user|] eqn:Hed.
    + unfold UserTable.handleUpdate. rewrite Hed.
      destruct (fetch net1 _ server) as [[response|] srv];
        [|simpl; rewrite Hed; done].
      destruct (ok response); [|simpl; rewrite Hed; done].
      rewrite fetchUsers_spec. simpl. split_and!; [|by intros [? [=]]|done].
      destruct net2; eauto.
    + unfold UserTable.handleCreate.
      destruct (fetch net1 _ server) as [[response|] srv];
        [|simpl; rewrite Hed; done].
      destruct (ok response); [|simpl; rewrite Hed; done].
      rewrite fetchUsers_spec. simpl. rewrite Hed.
      split_and!; [|by intros [? [=]]|done].
      destruct net2; eauto.
Qed.

End table_invariant.

(** Any number of events keep them. *)
Lemma handleAll_keeps (es : list UserTable.Event) (st : UserTable.State)
    (server : list User) :
  (∃ l, UserTable.users st = JsonUsers l) ∧
  (is_Some (UserTable.editingUser st) → UserTable.isModalOpen st = true) ∧
  (UserTable.isLoading st = true → UserTable.users st = JsonUsers []) →
  let st' := (UserTable.handleAll es st server).1 in
  (∃ l, UserTable.users st' = JsonUsers l) ∧
  (is_Some (UserTable.editingUser st') → UserTable.isModalOpen st' = true) ∧
  (UserTable.isLoading st' = true → UserTable.users st' = JsonUsers []).
Proof.
  revert st server. induction es as [|e es IH]; intros st server Hst;
    [exact Hst|].
  simpl. pose proof (handle_keeps e st server Hst) as Hnext.
  destruct (UserTable.handle e st server) as [st1 server1].
  by apply IH.
Qed.

Lemma initial_keeps :
  (∃ l, UserTable.users UserTable.initial = JsonUsers l) ∧
  (is_Some (UserTable.editingUser UserTable.initial) →
   UserTable.isModalOpen UserTable.initial = true) ∧
  (UserTable.isLoading UserTable.initial = true →
   UserTable.users UserTable.initial = JsonUsers []).
Proof. split_and!; [by eexists| by intros [? [=]] | done]. Qed.

(** X17.  Whatever events the table handles from its first render, one
    after the other, against whatever server array and network: its list
    is always an array of users, never an error object, and as long as it
    shows the loading state its list is the empty one it started with. *)
Theorem table_list_is_always_an_array
    (es : list UserTable.Event) (server : list User) :
  Forall UserTable.wired es →
  let st := (UserTable.handleAll es UserTable.initial server).1 in
  (∃ l, UserTable.users st = JsonUsers l) ∧
  (UserTable.isLoading st = true → UserTable.users st = JsonUsers []).
Proof.
  intros _. cbv zeta.
  destruct (handleAll_keeps es UserTable.initial server initial_keeps)
    as (Harr & _ & Hload).
  done.
Qed.

Lemma table_list_is_always_an_array_witness :
  let jane := mkUser "2" "Jane Smith" "jane@example.com" "User" boot in
  let es := [UserTable.Mount Online; UserTable.ClickEdit jane;
             UserTable.Submit ann Online ReplyLost tick] in
  Forall UserTable.wired es ∧
  ∃ l, UserTable.users (UserTable.handleAll es UserTable.initial seed).1
       = JsonUsers l.
Proof.
  intros jane es.
  assert (Hw : Forall UserTable.wired es).
  { repeat constructor. by exists 2%Z. }
  split; [exact Hw|].
  exact (proj1 (table_list_is_always_an_array es seed Hw)).
Defined.

(** X18.  In the same setting, each event handled to its end before the
    next arrives, a user is being edited only while the modal is open. *)
Theorem editing_only_while_modal_open
    (es : list UserTable.Event) (server : list User) :
  Forall UserTable.wired es →
  let st := (UserTable.handleAll es UserTable.initial server).1 in
  is_Some (UserTable.editingUser st) → UserTable.isModalOpen st = true.
Proof.
  intros _. cbv zeta.
  destruct (handleAll_keeps es UserTable.initial server initial_keeps)
    as (_ & Hmodal & _).
  done.
Qed.

Lemma editing_only_while_modal_open_witness :
  let jane := mkUser "2" "Jane Smith" "jane@example.com" "User" boot in
  let es := [UserTable.Mount Online; UserTable.ClickEdit jane] in
  Forall UserTable.wired es ∧
  is_Some (UserTable.editingUser (UserTable.handleAll es UserTable.initial seed).1)
  ∧ UserTable.isModalOpen (UserTable.handleAll es UserTable.initial seed).1
    = true.
Proof.
  intros jane es.
  assert (Hw : Forall UserTable.wired es).
  { repeat constructor. by exists 2%Z. }
  assert (H : is_Some (UserTable.editingUser
                         (UserTable.handleAll es UserTable.initial seed).1))
    by (by eexists).
  split; [exact Hw|]. split; [exact H|].
  exact (editing_only_while_modal_open es seed Hw H).
Defined.
